(** * Nearby: medium normalisation, presence device identity, credential
      storage facade

    A shallow embedding of
      - [cpp/core/discovery_options.h]      ([DiscoveryOptions]),
      - [presence/presence_device.cc]       ([PresenceDevice]),
      - [internal/platform/credential_storage.cc] ([CredentialStorage]),
    followed by the properties established for them. *)

From Stdlib Require Import Bool List String Ascii ZArith Lia PeanoNat.
Import ListNotations.

(* ===================================================================== *)
(** * Part I: connection options                                          *)
(* ===================================================================== *)

Module Connections.

(** Modelled from the spec: [core/strategy.h] is not part of the sources at
    hand.  A strategy is one of the three topology kinds. *)
Inductive Strategy : Type :=
  | POINT_TO_POINT
  | STAR
  | CLUSTER.

(** Modelled from the spec: [core/medium_selector.h] is not part of the
    sources at hand.  A fixed-size record with one field per supported
    medium (Bluetooth Classic, BLE, Wi-Fi LAN, Wi-Fi Direct, Wi-Fi Aware,
    NFC, WebRTC), each holding a value of type [T]. *)
Record MediumSelector (T : Type) : Type := mkMediumSelector {
  bluetooth   : T;
  ble         : T;
  wifi_lan    : T;
  wifi_direct : T;
  wifi_aware  : T;
  nfc         : T;
  web_rtc     : T
}.

Arguments mkMediumSelector {T}.
Arguments bluetooth {T}.
Arguments ble {T}.
Arguments wifi_lan {T}.
Arguments wifi_direct {T}.
Arguments wifi_aware {T}.
Arguments nfc {T}.
Arguments web_rtc {T}.

(** [using BooleanMediumSelector = MediumSelector<bool>;] *)
Definition BooleanMediumSelector : Type := MediumSelector bool.

(** The per-medium values, in field order. *)
Definition values {T : Type} (m : MediumSelector T) : list T :=
  [bluetooth m; ble m; wifi_lan m; wifi_direct m; wifi_aware m; nfc m;
   web_rtc m].

(** Modelled from the spec: [Count()] is the number of enabled mediums. *)
Definition Count (m : BooleanMediumSelector) : nat :=
  List.length (List.filter (fun b : bool => b) (values m)).

(** Modelled from the spec: [Any()] is true if at least one medium is
    enabled. *)
Definition Any (m : BooleanMediumSelector) : bool :=
  List.existsb (fun b : bool => b) (values m).

(** Modelled from the spec: [All()] is true if every medium is enabled. *)
Definition All (m : BooleanMediumSelector) : bool :=
  List.forallb (fun b : bool => b) (values m).

(** Modelled from the spec: assigning one value to every medium field. *)
Definition SetAll {T : Type} (v : T) : MediumSelector T :=
  mkMediumSelector v v v v v v v.

(** The selector that enables Bluetooth Classic and nothing else. *)
Definition BluetoothOnly : BooleanMediumSelector :=
  mkMediumSelector true false false false false false false.

(** Modelled from the spec: [core/options_base.h] is not part of the
    sources at hand.  The fields shared by advertising and discovery
    options: the strategy, the allowed mediums, and the low-power and
    always-on flags. *)
Record OptionsBase : Type := mkOptionsBase {
  strategy  : Strategy;
  allowed   : BooleanMediumSelector;
  low_power : bool;
  always_on : bool
}.

(** [struct DiscoveryOptions : OptionsBase]; the inherited part is the
    field [base].  The two [int] fields are only stored and copied, so
    they are kept as integers. *)
Record DiscoveryOptions : Type := mkDiscoveryOptions {
  base                            : OptionsBase;
  auto_upgrade_bandwidth          : bool;
  enforce_topology_constraints    : bool;
  keep_alive_interval_millis      : Z;
  keep_alive_timeout_millis       : Z;
  is_out_of_band_connection       : bool;
  fast_advertisement_service_uuid : string
}.

(** [result.allowed = m] on a copy of [o]. *)
Definition set_allowed (o : DiscoveryOptions) (m : BooleanMediumSelector)
  : DiscoveryOptions :=
  mkDiscoveryOptions
    (mkOptionsBase (strategy (base o)) m (low_power (base o))
                   (always_on (base o)))
    (auto_upgrade_bandwidth o)
    (enforce_topology_constraints o)
    (keep_alive_interval_millis o)
    (keep_alive_timeout_millis o)
    (is_out_of_band_connection o)
    (fast_advertisement_service_uuid o).

(** Modelled from the spec: the body of [DiscoveryOptions::CompatibleOptions]
    ([discovery_options.cc]) is not part of the sources at hand; only its
    declaration and its comment are.  The options normaliser:
    - out of band: a selector with exactly one medium is kept, any other
      selector becomes Bluetooth Classic only;
    - otherwise: a selector with no medium becomes all mediums, any other
      selector is passed through;
    - every other field is copied. *)
Definition CompatibleOptions (this : DiscoveryOptions) : DiscoveryOptions :=
  if is_out_of_band_connection this then
    if Count (allowed (base this)) =? 1 then this
    else set_allowed this BluetoothOnly
  else
    if Count (allowed (base this)) =? 0 then set_allowed this (SetAll true)
    else this.

(** A call of the [const] member function on a receiver: the returned copy
    and the receiver as it is after the call. *)
Definition CompatibleOptions_call (this : DiscoveryOptions)
  : DiscoveryOptions * DiscoveryOptions :=
  let result := CompatibleOptions this in
  (result, this).

End Connections.

(* ===================================================================== *)
(** * Part II: presence device identity                                   *)
(* ===================================================================== *)

(** Calls that read the clock or draw random bytes act on the world
    outside the program and may leave by an exception; a [noexcept]
    function that lets an exception escape ends the process. *)
Module Cpp.

Inductive Outcome (A : Type) : Type :=
  | Returned (a : A)
  | Thrown
  | Terminated.

Arguments Returned {A} a.
Arguments Thrown {A}.
Arguments Terminated {A}.

(** A computation over the world [W] with a result in [A]. *)
Definition Eff (W A : Type) : Type := W -> Outcome (A * W).

Definition ret {W A : Type} (a : A) : Eff W A :=
  fun w => Returned (a, w).

Definition bind {W A B : Type} (c : Eff W A) (k : A -> Eff W B) : Eff W B :=
  fun w =>
    match c w with
    | Returned (a, w') => k a w'
    | Thrown => Thrown
    | Terminated => Terminated
    end.

(** The [noexcept] specifier: an exception that reaches the function
    boundary calls [std::terminate]. *)
Definition noexcept {W A : Type} (c : Eff W A) : Eff W A :=
  fun w =>
    match c w with
    | Returned x => Returned x
    | Thrown => Terminated
    | Terminated => Terminated
    end.

Declare Scope eff_scope.
Delimit Scope eff_scope with eff.
Notation "x <- c ;; k" := (bind c (fun x => k))
  (at level 61, c at next level, right associativity) : eff_scope.

End Cpp.

Module Presence.
Import Cpp.
Local Open Scope eff_scope.

(** What [presence_device.cc] takes from headers that are not part of the
    sources at hand: the clock ([system_clock.h]), the random source
    ([crypto/random.h]), the constant [kEndpointIdLength] and the class
    layout ([presence_device.h]), [DeviceMotion] with its default
    constructor ([device_motion.h]) and the metadata message with its
    [bluetooth_mac_address()] getter.  [ElapsedRealtime] is the platform's
    monotonic elapsed-time clock.  The clock and the random source act on
    the world and may return or throw; copying a motion or metadata value
    and building the default motion are plain values. *)
Class Deps : Type := {
  World                 : Type;
  Timestamp             : Type;
  DeviceMotion          : Type;
  DeviceMetadata        : Type;
  ElapsedRealtime       : Eff World Timestamp;
  RandBytes             : nat -> Eff World string;
  kEndpointIdLength     : nat;
  DeviceMotion_default  : DeviceMotion;
  bluetooth_mac_address : DeviceMetadata -> string
}.

(** Modelled from the spec: [ble_connection_info.h] is not part of the
    sources at hand.  A BLE connection info is built from, and carries, a
    MAC address. *)
Record BleConnectionInfo : Type := mkBleConnectionInfo {
  mac_address : string
}.

(** Modelled from the spec: the tagged union of transport-specific
    connection infos.  Only the BLE alternative is used by the code at
    hand; [OtherConnectionInfo] stands for the alternatives of the other
    transports. *)
Inductive ConnectionInfoVariant : Type :=
  | BleVariant (info : BleConnectionInfo)
  | OtherConnectionInfo (transport : string).

Section PresenceDevice.
Context `{D : Deps}.

(** The data members of [class PresenceDevice], in the order of the
    constructors' initialiser lists. *)
Record PresenceDevice : Type := mkPresenceDevice {
  discovery_timestamp_ : Timestamp;
  device_motion_       : DeviceMotion;
  device_metadata_     : DeviceMetadata;
  endpoint_id_         : string
}.

(** [endpoint_id_ = id;] *)
Definition assign_endpoint_id (this : PresenceDevice) (id : string)
  : PresenceDevice :=
  mkPresenceDevice (discovery_timestamp_ this) (device_motion_ this)
                   (device_metadata_ this) id.

(** [std::string GenerateRandomEndpointId()] *)
Definition GenerateRandomEndpointId : Eff World string :=
  RandBytes kEndpointIdLength.

(** [PresenceDevice::PresenceDevice(DeviceMetadata device_metadata) noexcept]:
    the member initialisers run first ([endpoint_id_] is default
    initialised to the empty string), then the body assigns the id. *)
Definition new_PresenceDevice (device_metadata : DeviceMetadata)
  : Eff World PresenceDevice :=
  noexcept (
    t <- ElapsedRealtime ;;
    let this :=
      mkPresenceDevice t DeviceMotion_default device_metadata EmptyString in
    id <- GenerateRandomEndpointId ;;
    ret (assign_endpoint_id this id)).

(** [PresenceDevice::PresenceDevice(DeviceMotion device_motion,
                                    DeviceMetadata device_metadata) noexcept] *)
Definition new_PresenceDevice_with_motion
    (device_motion : DeviceMotion) (device_metadata : DeviceMetadata)
  : Eff World PresenceDevice :=
  noexcept (
    t <- ElapsedRealtime ;;
    let this :=
      mkPresenceDevice t device_motion device_metadata EmptyString in
    id <- GenerateRandomEndpointId ;;
    ret (assign_endpoint_id this id)).

(** The motion a record is built with: the supplied one, or [DeviceMotion()]
    when none is supplied. *)
Definition motion_or_default (device_motion : option DeviceMotion)
  : DeviceMotion :=
  match device_motion with
  | Some m => m
  | None => DeviceMotion_default
  end.

(** Overload resolution between the two constructors: a caller that has
    no motion value reaches the first, a caller that has one the second. *)
Definition construct (device_motion : option DeviceMotion)
    (device_metadata : DeviceMetadata) : Eff World PresenceDevice :=
  match device_motion with
  | None => new_PresenceDevice device_metadata
  | Some m => new_PresenceDevice_with_motion m device_metadata
  end.

(** [PresenceDevice::GetConnectionInfos() const] *)
Definition GetConnectionInfos (this : PresenceDevice)
  : list ConnectionInfoVariant :=
  [BleVariant
     (mkBleConnectionInfo (bluetooth_mac_address (device_metadata_ this)))].

(** Modelled from the spec: the read accessor for the EndpointId, declared
    in [presence_device.h], which is not part of the sources at hand. *)
Definition GetEndpointId (this : PresenceDevice) : string :=
  endpoint_id_ this.

(** Modelled from the spec: the read accessor for the discovery timestamp
    ([presence_device.h]). *)
Definition GetDiscoveryTimestamp (this : PresenceDevice) : Timestamp :=
  discovery_timestamp_ this.

(** Modelled from the spec: the read accessor for the device motion
    ([presence_device.h]). *)
Definition GetDeviceMotion (this : PresenceDevice) : DeviceMotion :=
  device_motion_ this.

(** Modelled from the spec: the read accessor for the device metadata
    ([presence_device.h]). *)
Definition GetDeviceMetadata (this : PresenceDevice) : DeviceMetadata :=
  device_metadata_ this.

(** Modelled from the spec: the external surface of a device record, and
    what else may happen in the program once a record exists.  The five
    member functions are the whole public surface (there is no setter);
    [OpElapsedRealtime] is a later clock read, [OpNewDevice] and
    [OpNewDeviceWithMotion] the construction of further records. *)
Inductive Op : Type :=
  | OpGetEndpointId
  | OpGetDiscoveryTimestamp
  | OpGetDeviceMotion
  | OpGetDeviceMetadata
  | OpGetConnectionInfos
  | OpElapsedRealtime
  | OpNewDevice (device_metadata : DeviceMetadata)
  | OpNewDeviceWithMotion (device_motion : DeviceMotion)
                          (device_metadata : DeviceMetadata).

(** What an operation hands back to its caller. *)
Inductive Obs : Type :=
  | ObsEndpointId (id : string)
  | ObsTimestamp (t : Timestamp)
  | ObsMotion (m : DeviceMotion)
  | ObsMetadata (md : DeviceMetadata)
  | ObsConnectionInfos (l : list ConnectionInfoVariant)
  | ObsDevice (d : PresenceDevice).

(** One operation on the receiver [this]: what the caller observes, and
    the receiver after the operation. *)
Definition step (op : Op) (this : PresenceDevice)
  : Eff World (Obs * PresenceDevice) :=
  match op with
  | OpGetEndpointId =>
      ret (ObsEndpointId (GetEndpointId this), this)
  | OpGetDiscoveryTimestamp =>
      ret (ObsTimestamp (GetDiscoveryTimestamp this), this)
  | OpGetDeviceMotion =>
      ret (ObsMotion (GetDeviceMotion this), this)
  | OpGetDeviceMetadata =>
      ret (ObsMetadata (GetDeviceMetadata this), this)
  | OpGetConnectionInfos =>
      ret (ObsConnectionInfos (GetConnectionInfos this), this)
  | OpElapsedRealtime =>
      t <- ElapsedRealtime ;; ret (ObsTimestamp t, this)
  | OpNewDevice md =>
      d <- new_PresenceDevice md ;; ret (ObsDevice d, this)
  | OpNewDeviceWithMotion m md =>
      d <- new_PresenceDevice_with_motion m md ;; ret (ObsDevice d, this)
  end.

(** The clock, respectively the random source, returns on every call. *)
Definition clock_returns : Prop :=
  forall w, exists t w', ElapsedRealtime w = Returned (t, w').

Definition random_returns : Prop :=
  forall n w, exists s w', RandBytes n w = Returned (s, w').

(** Modelled from the spec: the random source hands back exactly the
    number of bytes it is asked for. *)
Definition random_length : Prop :=
  forall n w s w', RandBytes n w = Returned (s, w') -> String.length s = n.

(** A sequence of operations, oldest first. *)
Fixpoint run (ops : list Op) (this : PresenceDevice)
  : Eff World (list Obs * PresenceDevice) :=
  match ops with
  | [] => ret ([], this)
  | op :: rest =>
      r <- step op this ;;
      rs <- run rest (snd r) ;;
      ret (fst r :: fst rs, snd rs)
  end.

End PresenceDevice.

Arguments PresenceDevice {D}.
Arguments mkPresenceDevice {D}.
Arguments Op {D}.
Arguments Obs {D}.

End Presence.

(** A small concrete platform on which the device code can be run: a
    clock that advances by one tick per reading, and a random source that
    hands out the bytes of a tape. *)
Module Sim.
Import Cpp Presence.
Local Open Scope string_scope.

Inductive Motion : Type :=
  | MotionUnknown
  | MotionPointAndHold.

Record Metadata : Type := mkMetadata {
  device_name : string;
  mac         : string
}.

Record SimWorld : Type := mkSimWorld {
  clock  : Z;
  tape   : nat -> ascii;
  cursor : nat
}.

Definition read_clock : Eff SimWorld Z :=
  fun w => Returned (clock w, mkSimWorld (clock w + 1) (tape w) (cursor w)).

(** The [n] bytes of the tape [f] that start at position [from]. *)
Fixpoint tape_segment (f : nat -> ascii) (from n : nat) : string :=
  match n with
  | O => EmptyString
  | S n' => String (f from) (tape_segment f (S from) n')
  end.

Definition draw (n : nat) : Eff SimWorld string :=
  fun w =>
    Returned (tape_segment (tape w) (cursor w) n,
              mkSimWorld (clock w) (tape w) (cursor w + n)).

(** A random source that fails with an exception. *)
Definition failing_draw (n : nat) : Eff SimWorld string :=
  fun _ => Thrown.

Definition deps : Deps :=
  {| World := SimWorld;
     Timestamp := Z;
     DeviceMotion := Motion;
     DeviceMetadata := Metadata;
     ElapsedRealtime := read_clock;
     RandBytes := draw;
     kEndpointIdLength := 4;
     DeviceMotion_default := MotionUnknown;
     bluetooth_mac_address := mac |}.

Definition failing_deps : Deps :=
  {| World := SimWorld;
     Timestamp := Z;
     DeviceMotion := Motion;
     DeviceMetadata := Metadata;
     ElapsedRealtime := read_clock;
     RandBytes := failing_draw;
     kEndpointIdLength := 4;
     DeviceMotion_default := MotionUnknown;
     bluetooth_mac_address := mac |}.

(** A tape that spells the alphabet over and over. *)
Definition alphabet (i : nat) : ascii := ascii_of_nat (65 + i mod 26).

(** A tape whose bytes repeat with period four. *)
Definition period4 (i : nat) : ascii := ascii_of_nat (65 + i mod 4).

Definition world0 : SimWorld := mkSimWorld 1000 alphabet 0.

Definition world_period4 : SimWorld := mkSimWorld 1000 period4 0.

Definition metadata0 : Metadata := mkMetadata "Pixel" "AA:BB:CC:DD:EE:FF".

(** A later history of a record: clock reads, timestamp reads and the
    construction of another record in between. *)
Definition history0 : list (Op (D := deps)) :=
  [OpElapsedRealtime; OpGetDiscoveryTimestamp;
   OpNewDevice (D := deps) metadata0;
   OpElapsedRealtime; OpGetDiscoveryTimestamp; OpGetEndpointId].

End Sim.

(* ===================================================================== *)
(** * Part III: credential storage facade                                 *)
(* ===================================================================== *)

Module Storage.

(** The types named in the signatures of [credential_storage.cc]; their
    declarations ([credential_storage.h], the credential protos) are not
    part of the sources at hand, and the facade only passes their values
    on. *)
Class Types : Type := {
  PrivateCredential                   : Type;
  PublicCredential                    : Type;
  PublicCredentialType                : Type;
  CredentialSelector                  : Type;
  SaveCredentialsResultCallback       : Type;
  GetPrivateCredentialsResultCallback : Type;
  GetPublicCredentialsResultCallback  : Type
}.

Section Facade.
Context `{T : Types}.

(** The interface [api::CredentialStorage] behind [impl_].  An operation
    acts on the state [St] of the implementation and of whatever its
    callback touches.  The two save operations receive their vector by
    non-const reference, so they also yield the vector as it is after the
    call. *)
Record api_CredentialStorage (St : Type) : Type := mkApi {
  api_SavePrivateCredentials :
    string -> list PrivateCredential -> SaveCredentialsResultCallback ->
    St -> list PrivateCredential * St;
  api_SavePublicCredentials :
    string -> list PublicCredential -> PublicCredentialType ->
    SaveCredentialsResultCallback -> St -> list PublicCredential * St;
  api_GetPrivateCredentials :
    CredentialSelector -> GetPrivateCredentialsResultCallback -> St -> St;
  api_GetPublicCredentials :
    CredentialSelector -> PublicCredentialType ->
    GetPublicCredentialsResultCallback -> St -> St
}.

Arguments api_SavePrivateCredentials {St}.
Arguments api_SavePublicCredentials {St}.
Arguments api_GetPrivateCredentials {St}.
Arguments api_GetPublicCredentials {St}.

(** [class CredentialStorage], which owns the injected [impl_]. *)
Record CredentialStorage (St : Type) : Type := mkCredentialStorage {
  impl_ : api_CredentialStorage St
}.

Arguments impl_ {St}.

Section Methods.
Variable St : Type.
Variable this : CredentialStorage St.

(** [void CredentialStorage::SavePrivateCredentials(...)] *)
Definition SavePrivateCredentials
    (account_name : string)
    (private_credentials : list PrivateCredential)
    (callback : SaveCredentialsResultCallback)
  : St -> list PrivateCredential * St :=
  api_SavePrivateCredentials (impl_ this) account_name private_credentials
                             callback.

(** [void CredentialStorage::SavePublicCredentials(...)] *)
Definition SavePublicCredentials
    (account_name : string)
    (public_credentials : list PublicCredential)
    (public_credential_type : PublicCredentialType)
    (callback : SaveCredentialsResultCallback)
  : St -> list PublicCredential * St :=
  api_SavePublicCredentials (impl_ this) account_name public_credentials
                            public_credential_type callback.

(** [void CredentialStorage::GetPrivateCredentials(...)] *)
Definition GetPrivateCredentials
    (credential_selector : CredentialSelector)
    (callback : GetPrivateCredentialsResultCallback)
  : St -> St :=
  api_GetPrivateCredentials (impl_ this) credential_selector callback.

(** [void CredentialStorage::GetPublicCredentials(...)] *)
Definition GetPublicCredentials
    (credential_selector : CredentialSelector)
    (public_credential_type : PublicCredentialType)
    (callback : GetPublicCredentialsResultCallback)
  : St -> St :=
  api_GetPublicCredentials (impl_ this) credential_selector
                           public_credential_type callback.

End Methods.

(** One invocation of an operation of the implementation, with the
    arguments it was given. *)
Inductive Call : Type :=
  | CallSavePrivateCredentials
      (account_name : string)
      (private_credentials : list PrivateCredential)
      (callback : SaveCredentialsResultCallback)
  | CallSavePublicCredentials
      (account_name : string)
      (public_credentials : list PublicCredential)
      (public_credential_type : PublicCredentialType)
      (callback : SaveCredentialsResultCallback)
  | CallGetPrivateCredentials
      (credential_selector : CredentialSelector)
      (callback : GetPrivateCredentialsResultCallback)
  | CallGetPublicCredentials
      (credential_selector : CredentialSelector)
      (public_credential_type : PublicCredentialType)
      (callback : GetPublicCredentialsResultCallback).

(** An implementation wrapped so that every invocation it receives is
    appended to a log kept next to its state; apart from the log it
    behaves as [impl]. *)
Definition recording {St : Type} (impl : api_CredentialStorage St)
  : api_CredentialStorage (list Call * St) :=
  {| api_SavePrivateCredentials := fun a v cb s =>
       let r := api_SavePrivateCredentials impl a v cb (snd s) in
       (fst r, (fst s ++ [CallSavePrivateCredentials a v cb], snd r));
     api_SavePublicCredentials := fun a v ty cb s =>
       let r := api_SavePublicCredentials impl a v ty cb (snd s) in
       (fst r, (fst s ++ [CallSavePublicCredentials a v ty cb], snd r));
     api_GetPrivateCredentials := fun sel cb s =>
       (fst s ++ [CallGetPrivateCredentials sel cb],
        api_GetPrivateCredentials impl sel cb (snd s));
     api_GetPublicCredentials := fun sel ty cb s =>
       (fst s ++ [CallGetPublicCredentials sel ty cb],
        api_GetPublicCredentials impl sel ty cb (snd s)) |}.

End Facade.

Arguments api_SavePrivateCredentials {T St}.
Arguments api_SavePublicCredentials {T St}.
Arguments api_GetPrivateCredentials {T St}.
Arguments api_GetPublicCredentials {T St}.
Arguments mkCredentialStorage {T St}.
Arguments impl_ {T St}.
Arguments SavePrivateCredentials {T St}.
Arguments SavePublicCredentials {T St}.
Arguments GetPrivateCredentials {T St}.
Arguments GetPublicCredentials {T St}.

End Storage.

(** A small in-memory implementation behind the facade: credentials are
    plain names, a callback is known by its number, and running a callback
    is recorded as a completion. *)
Module MemStore.
Import Storage.
Local Open Scope string_scope.

Definition types : Types :=
  {| PrivateCredential := string;
     PublicCredential := string;
     PublicCredentialType := bool;
     CredentialSelector := string;
     SaveCredentialsResultCallback := nat;
     GetPrivateCredentialsResultCallback := nat;
     GetPublicCredentialsResultCallback := nat |}.

Record Store : Type := mkStore {
  private_of : list (string * list string);
  public_of  : list (string * bool * list string);
  completed  : list (nat * option (list string))
}.

Fixpoint find_private (acct : string) (l : list (string * list string))
  : option (list string) :=
  match l with
  | [] => None
  | (a, v) :: rest => if String.eqb a acct then Some v else find_private acct rest
  end.

Fixpoint find_public (acct : string) (ty : bool)
    (l : list (string * bool * list string)) : option (list string) :=
  match l with
  | [] => None
  | (a, t, v) :: rest =>
      if (String.eqb a acct && Bool.eqb t ty)%bool then Some v
      else find_public acct ty rest
  end.

Definition mem : api_CredentialStorage (T := types) Store :=
  @mkApi types Store
    (fun (a : string) (v : list string) (cb : nat) (s : Store) =>
       (v, mkStore ((a, v) :: private_of s) (public_of s)
                   ((cb, Some []) :: completed s)))
    (fun (a : string) (v : list string) (ty : bool) (cb : nat) (s : Store) =>
       (v, mkStore (private_of s) ((a, ty, v) :: public_of s)
                   ((cb, Some []) :: completed s)))
    (fun (sel : string) (cb : nat) (s : Store) =>
       mkStore (private_of s) (public_of s)
               ((cb, find_private sel (private_of s)) :: completed s))
    (fun (sel : string) (ty : bool) (cb : nat) (s : Store) =>
       mkStore (private_of s) (public_of s)
               ((cb, find_public sel ty (public_of s)) :: completed s)).

Definition empty : Store := mkStore [] [] [].

End MemStore.

(** The calls a constructor makes to the platform, observed from outside:
    a platform wrapped so that every clock reading and every random draw
    that returns is appended to a log kept next to the world.  Apart from
    the log the wrapped platform behaves as the one it wraps. *)
Module PresenceTrace.
Import Cpp Presence.

Inductive Event : Type :=
  | EvElapsedRealtime
  | EvRandBytes (n : nat).

Definition traced (D : Deps) : Deps :=
  {| World := list Event * @World D;
     Timestamp := @Timestamp D;
     DeviceMotion := @DeviceMotion D;
     DeviceMetadata := @DeviceMetadata D;
     ElapsedRealtime := fun lw =>
       match @ElapsedRealtime D (snd lw) with
       | Returned (t, w') =>
           Returned (t, (fst lw ++ [EvElapsedRealtime], w'))
       | Thrown => Thrown
       | Terminated => Terminated
       end;
     RandBytes := fun n lw =>
       match @RandBytes D n (snd lw) with
       | Returned (bytes, w') =>
           Returned (bytes, (fst lw ++ [EvRandBytes n], w'))
       | Thrown => Thrown
       | Terminated => Terminated
       end;
     kEndpointIdLength := @kEndpointIdLength D;
     DeviceMotion_default := @DeviceMotion_default D;
     bluetooth_mac_address := @bluetooth_mac_address D |}.

End PresenceTrace.

(** Sequences of requests to the credential storage: a request is named
    by the invocation it stands for, and is served either by the facade
    or by an implementation directly. *)
Module StorageSeq.
Import Storage.

Section Requests.
Context `{T : Types}.
Variable St : Type.

(** The facade operation that the request [c] names, on the arguments it
    carries; the state the call leaves. *)
Definition request (this : CredentialStorage St) (c : Call) (s : St) : St :=
  match c with
  | CallSavePrivateCredentials a v cb =>
      snd (SavePrivateCredentials this a v cb s)
  | CallSavePublicCredentials a v ty cb =>
      snd (SavePublicCredentials this a v ty cb s)
  | CallGetPrivateCredentials sel cb =>
      GetPrivateCredentials this sel cb s
  | CallGetPublicCredentials sel ty cb =>
      GetPublicCredentials this sel ty cb s
  end.

(** The same request served by an implementation without the facade. *)
Definition invoke (impl : api_CredentialStorage St) (c : Call) (s : St) : St :=
  match c with
  | CallSavePrivateCredentials a v cb =>
      snd (api_SavePrivateCredentials impl a v cb s)
  | CallSavePublicCredentials a v ty cb =>
      snd (api_SavePublicCredentials impl a v ty cb s)
  | CallGetPrivateCredentials sel cb =>
      api_GetPrivateCredentials impl sel cb s
  | CallGetPublicCredentials sel ty cb =>
      api_GetPublicCredentials impl sel ty cb s
  end.

(** Requests served one after the other, oldest first. *)
Definition request_all (this : CredentialStorage St) (cs : list Call) (s : St)
  : St :=
  List.fold_left (fun s' c => request this c s') cs s.

Definition invoke_all (impl : api_CredentialStorage St) (cs : list Call)
    (s : St) : St :=
  List.fold_left (fun s' c => invoke impl c s') cs s.

End Requests.

Arguments request {T St}.
Arguments invoke {T St}.
Arguments request_all {T St}.
Arguments invoke_all {T St}.

End StorageSeq.

(** Concrete option values used to exercise the normaliser. *)
Module Scenarios.
Import Connections.

Definition no_medium : BooleanMediumSelector := SetAll false.

Definition ble_and_bluetooth : BooleanMediumSelector :=
  mkMediumSelector true true false false false false false.

Definition wifi_lan_only : BooleanMediumSelector :=
  mkMediumSelector false false true false false false false.

Definition options (s : Strategy) (m : BooleanMediumSelector) (oob : bool)
  : DiscoveryOptions :=
  mkDiscoveryOptions (mkOptionsBase s m false true) true false 5000 30000
                     oob EmptyString.

(** Strategy STAR, nothing enabled, not out of band. *)
Definition star_nothing : DiscoveryOptions := options STAR no_medium false.

(** Strategy POINT_TO_POINT, BLE and Bluetooth Classic enabled, out of
    band. *)
Definition p2p_two_oob : DiscoveryOptions :=
  options POINT_TO_POINT ble_and_bluetooth true.

(** Strategy CLUSTER, Wi-Fi LAN only, out of band. *)
Definition cluster_lan_oob : DiscoveryOptions :=
  options CLUSTER wifi_lan_only true.

End Scenarios.

(* ===================================================================== *)
(** * Properties of the options normaliser                                *)
(* ===================================================================== *)

Module ConnectionsFacts.
Import Connections Scenarios.

Lemma Count_BluetoothOnly : Count BluetoothOnly = 1.
Proof. reflexivity. Qed.

Lemma Count_SetAll_true : Count (SetAll true) = 7.
Proof. reflexivity. Qed.

Lemma All_SetAll_true : All (SetAll true) = true.
Proof. reflexivity. Qed.

Lemma Count_le_7 (m : BooleanMediumSelector) : Count m <= 7.
Proof.
  unfold Count.
  etransitivity; [apply List.filter_length_le | reflexivity].
Qed.

(** No medium is counted exactly when no medium is enabled. *)
Lemma Count_0_Any (m : BooleanMediumSelector) :
  Count m = 0 <-> Any m = false.
Proof.
  destruct m as [b1 b2 b3 b4 b5 b6 b7].
  destruct b1, b2, b3, b4, b5, b6, b7; cbn; split;
    first [reflexivity | discriminate].
Qed.

Lemma allowed_set_allowed (o : DiscoveryOptions) (m : BooleanMediumSelector) :
  allowed (base (set_allowed o m)) = m.
Proof. reflexivity. Qed.

Lemma out_of_band_set_allowed (o : DiscoveryOptions)
    (m : BooleanMediumSelector) :
  is_out_of_band_connection (set_allowed o m) = is_out_of_band_connection o.
Proof. reflexivity. Qed.

Lemma set_allowed_same (o : DiscoveryOptions) :
  set_allowed o (allowed (base o)) = o.
Proof. destruct o as [[s m lp ao] a e ki kt oob u]. reflexivity. Qed.

(** The four branches of the normaliser. *)
Lemma CompatibleOptions_oob_one (o : DiscoveryOptions) :
  is_out_of_band_connection o = true ->
  Count (allowed (base o)) = 1 ->
  CompatibleOptions o = o.
Proof.
  intros Hoob Hc. unfold CompatibleOptions. rewrite Hoob, Hc. reflexivity.
Qed.

Lemma CompatibleOptions_oob_other (o : DiscoveryOptions) :
  is_out_of_band_connection o = true ->
  Count (allowed (base o)) <> 1 ->
  CompatibleOptions o = set_allowed o BluetoothOnly.
Proof.
  intros Hoob Hc. unfold CompatibleOptions. rewrite Hoob.
  destruct (Nat.eqb_spec (Count (allowed (base o))) 1) as [E | _].
  - contradiction.
  - reflexivity.
Qed.

Lemma CompatibleOptions_normal_none (o : DiscoveryOptions) :
  is_out_of_band_connection o = false ->
  Count (allowed (base o)) = 0 ->
  CompatibleOptions o = set_allowed o (SetAll true).
Proof.
  intros Hoob Hc. unfold CompatibleOptions. rewrite Hoob, Hc. reflexivity.
Qed.

Lemma CompatibleOptions_normal_some (o : DiscoveryOptions) :
  is_out_of_band_connection o = false ->
  Count (allowed (base o)) <> 0 ->
  CompatibleOptions o = o.
Proof.
  intros Hoob Hc. unfold CompatibleOptions. rewrite Hoob.
  destruct (Nat.eqb_spec (Count (allowed (base o))) 0) as [E | _].
  - contradiction.
  - reflexivity.
Qed.

(** Whatever the branch, the result is the input with a new selector. *)
Lemma CompatibleOptions_set_allowed (o : DiscoveryOptions) :
  CompatibleOptions o =
  set_allowed o (allowed (base (CompatibleOptions o))).
Proof.
  unfold CompatibleOptions.
  destruct (is_out_of_band_connection o);
    match goal with
    | |- context [Nat.eqb ?a ?b] => destruct (Nat.eqb a b)
    end;
    first [ symmetry; apply set_allowed_same | reflexivity ].
Qed.

(** The two scenarios of the specification, and a pass-through. *)
Example star_nothing_becomes_all :
  CompatibleOptions star_nothing = options STAR (SetAll true) false.
Proof. reflexivity. Qed.

Example p2p_two_oob_becomes_bluetooth :
  CompatibleOptions p2p_two_oob = options POINT_TO_POINT BluetoothOnly true.
Proof. reflexivity. Qed.

Example cluster_lan_oob_is_kept :
  CompatibleOptions cluster_lan_oob = cluster_lan_oob.
Proof. reflexivity. Qed.

Example no_medium_oob_becomes_bluetooth :
  CompatibleOptions (options STAR no_medium true) =
  options STAR BluetoothOnly true.
Proof. reflexivity. Qed.

(** C1.  Out-of-band normalisation: for every strategy [s] and every
    selector [m], when [is_out_of_band_connection] is true the selector of
    the result enables exactly one medium; an input selector with exactly
    one medium enabled is returned unchanged (the whole value is), and an
    input selector with zero or with more than one medium enabled is
    replaced by Bluetooth Classic only, every other medium disabled. *)
Theorem CompatibleOptions_out_of_band
    (s : Strategy) (m : BooleanMediumSelector) (o : DiscoveryOptions) :
  strategy (base o) = s ->
  allowed (base o) = m ->
  is_out_of_band_connection o = true ->
  Count (allowed (base (CompatibleOptions o))) = 1 /\
  (Count m = 1 ->
     CompatibleOptions o = o /\ allowed (base (CompatibleOptions o)) = m) /\
  (Count m <> 1 ->
     allowed (base (CompatibleOptions o)) =
     mkMediumSelector true false false false false false false).
Proof.
  intros _ Hm Hoob. subst m.
  destruct (Nat.eq_dec (Count (allowed (base o))) 1) as [H1 | H1].
  - rewrite (CompatibleOptions_oob_one o Hoob H1).
    split; [exact H1 | split].
    + intros _. split; reflexivity.
    + intros Hne. contradiction.
  - rewrite (CompatibleOptions_oob_other o Hoob H1).
    rewrite allowed_set_allowed.
    split; [reflexivity | split].
    + intros He. contradiction.
    + intros _. reflexivity.
Qed.

Lemma CompatibleOptions_out_of_band_witness :
  (is_out_of_band_connection p2p_two_oob = true /\
   Count (allowed (base (CompatibleOptions p2p_two_oob))) = 1 /\
   allowed (base (CompatibleOptions p2p_two_oob)) = BluetoothOnly) /\
  (is_out_of_band_connection cluster_lan_oob = true /\
   allowed (base (CompatibleOptions cluster_lan_oob)) = wifi_lan_only).
Proof.
  split.
  - destruct (CompatibleOptions_out_of_band
                POINT_TO_POINT ble_and_bluetooth p2p_two_oob
                eq_refl eq_refl eq_refl) as [H1 [_ H3]].
    split; [reflexivity | split; [exact H1 | apply H3; discriminate]].
  - destruct (CompatibleOptions_out_of_band
                CLUSTER wifi_lan_only cluster_lan_oob
                eq_refl eq_refl eq_refl) as [_ [H2 _]].
    split; [reflexivity | apply H2; reflexivity].
Defined.

(** C2.  Normal (not out-of-band) normalisation: for every strategy [s]
    and every selector [m], when [is_out_of_band_connection] is false an
    input selector with no medium enabled is replaced by one that enables
    all supported mediums, and an input selector with one or more mediums
    enabled is returned unchanged. *)
Theorem CompatibleOptions_normal
    (s : Strategy) (m : BooleanMediumSelector) (o : DiscoveryOptions) :
  strategy (base o) = s ->
  allowed (base o) = m ->
  is_out_of_band_connection o = false ->
  (Count m = 0 ->
     All (allowed (base (CompatibleOptions o))) = true /\
     allowed (base (CompatibleOptions o)) = SetAll true) /\
  (1 <= Count m ->
     allowed (base (CompatibleOptions o)) = m /\ CompatibleOptions o = o).
Proof.
  intros _ Hm Hoob. subst m. split.
  - intros H0. rewrite (CompatibleOptions_normal_none o Hoob H0).
    rewrite allowed_set_allowed. split; reflexivity.
  - intros H1.
    assert (Hne : Count (allowed (base o)) <> 0) by lia.
    rewrite (CompatibleOptions_normal_some o Hoob Hne). split; reflexivity.
Qed.

Lemma CompatibleOptions_normal_witness :
  is_out_of_band_connection star_nothing = false /\
  Count (allowed (base star_nothing)) = 0 /\
  All (allowed (base (CompatibleOptions star_nothing))) = true /\
  allowed (base (CompatibleOptions (options STAR wifi_lan_only false))) =
  wifi_lan_only.
Proof.
  split; [reflexivity | split; [reflexivity | split]].
  - apply (CompatibleOptions_normal STAR no_medium star_nothing
             eq_refl eq_refl eq_refl).
    reflexivity.
  - apply (CompatibleOptions_normal STAR wifi_lan_only
             (options STAR wifi_lan_only false) eq_refl eq_refl eq_refl).
    cbn. lia.
Defined.

(** C3.  The normaliser is idempotent on every options value, whatever its
    strategy, selector and out-of-band flag, and a call leaves its
    receiver as it was: the call yields the normalised copy and the
    unchanged receiver. *)
Theorem CompatibleOptions_idempotent (x : DiscoveryOptions) :
  CompatibleOptions (CompatibleOptions x) = CompatibleOptions x /\
  CompatibleOptions_call x = (CompatibleOptions x, x) /\
  snd (CompatibleOptions_call x) = x.
Proof.
  split; [| split; reflexivity].
  destruct (is_out_of_band_connection x) eqn:Hoob.
  - destruct (Nat.eq_dec (Count (allowed (base x))) 1) as [H1 | H1].
    + rewrite (CompatibleOptions_oob_one x Hoob H1).
      apply (CompatibleOptions_oob_one x Hoob H1).
    + rewrite (CompatibleOptions_oob_other x Hoob H1).
      apply CompatibleOptions_oob_one.
      * rewrite out_of_band_set_allowed. exact Hoob.
      * rewrite allowed_set_allowed. apply Count_BluetoothOnly.
  - destruct (Nat.eq_dec (Count (allowed (base x))) 0) as [H0 | H0].
    + rewrite (CompatibleOptions_normal_none x Hoob H0).
      apply CompatibleOptions_normal_some.
      * rewrite out_of_band_set_allowed. exact Hoob.
      * rewrite allowed_set_allowed, Count_SetAll_true. discriminate.
    + rewrite (CompatibleOptions_normal_some x Hoob H0).
      apply (CompatibleOptions_normal_some x Hoob H0).
Qed.

(** C4.  Frame: the value returned by the normaliser has the same
    strategy, auto_upgrade_bandwidth, enforce_topology_constraints,
    keep_alive_interval_millis, keep_alive_timeout_millis,
    is_out_of_band_connection, fast_advertisement_service_uuid and
    remaining inherited flags as the input; it is the input with, at most,
    a different medium selector. *)
Theorem CompatibleOptions_frame (o : DiscoveryOptions) :
  let r := CompatibleOptions o in
  strategy (base r) = strategy (base o) /\
  low_power (base r) = low_power (base o) /\
  always_on (base r) = always_on (base o) /\
  auto_upgrade_bandwidth r = auto_upgrade_bandwidth o /\
  enforce_topology_constraints r = enforce_topology_constraints o /\
  keep_alive_interval_millis r = keep_alive_interval_millis o /\
  keep_alive_timeout_millis r = keep_alive_timeout_millis o /\
  is_out_of_band_connection r = is_out_of_band_connection o /\
  fast_advertisement_service_uuid r = fast_advertisement_service_uuid o /\
  r = set_allowed o (allowed (base r)).
Proof.
  intros r. subst r.
  pose proof (CompatibleOptions_set_allowed o) as E.
  repeat match goal with |- _ /\ _ => split end;
    try exact E; rewrite E; reflexivity.
Qed.

End ConnectionsFacts.

(* ===================================================================== *)
(** * Properties of the presence device record                            *)
(* ===================================================================== *)

Module PresenceFacts.
Import Cpp Presence.

Section Generic.
Context `{D : Deps}.

Lemma new_PresenceDevice_as_with_motion (md : DeviceMetadata) :
  new_PresenceDevice md =
  new_PresenceDevice_with_motion DeviceMotion_default md.
Proof. reflexivity. Qed.

Lemma construct_as_with_motion (om : option DeviceMotion)
    (md : DeviceMetadata) :
  construct om md =
  new_PresenceDevice_with_motion (motion_or_default om) md.
Proof. destruct om; reflexivity. Qed.

(** The constructor, spelled out on the outcomes of its two calls. *)
Lemma with_motion_unfold (m : DeviceMotion) (md : DeviceMetadata) (w : World) :
  new_PresenceDevice_with_motion m md w =
  match ElapsedRealtime w with
  | Returned (t, w1) =>
      match RandBytes kEndpointIdLength w1 with
      | Returned (id, w2) => Returned (mkPresenceDevice t m md id, w2)
      | _ => Terminated
      end
  | _ => Terminated
  end.
Proof.
  unfold new_PresenceDevice_with_motion, noexcept, bind,
    GenerateRandomEndpointId, ret, assign_endpoint_id.
  destruct (ElapsedRealtime w) as [[t w1] | |]; try reflexivity.
  destruct (RandBytes kEndpointIdLength w1) as [[id w2] | |]; reflexivity.
Qed.

Lemma with_motion_returns (m : DeviceMotion) (md : DeviceMetadata)
    (w w1 w2 : World) (t : Timestamp) (id : string) :
  ElapsedRealtime w = Returned (t, w1) ->
  RandBytes kEndpointIdLength w1 = Returned (id, w2) ->
  new_PresenceDevice_with_motion m md w =
  Returned (mkPresenceDevice t m md id, w2).
Proof.
  intros Ht Hid. rewrite with_motion_unfold, Ht, Hid. reflexivity.
Qed.

Lemma with_motion_returned_inv (m : DeviceMotion) (md : DeviceMetadata)
    (w w' : World) (d : PresenceDevice) :
  new_PresenceDevice_with_motion m md w = Returned (d, w') ->
  exists t w1 id,
    ElapsedRealtime w = Returned (t, w1) /\
    RandBytes kEndpointIdLength w1 = Returned (id, w') /\
    d = mkPresenceDevice t m md id.
Proof.
  rewrite with_motion_unfold.
  destruct (ElapsedRealtime w) as [[t w1] | |] eqn:Ht; try discriminate.
  destruct (RandBytes kEndpointIdLength w1) as [[id w2] | |] eqn:Hid;
    try discriminate.
  intros H. inversion H; subst. exists t, w1, id.
  split; [reflexivity | split; [exact Hid | reflexivity]].
Qed.

Lemma with_motion_not_thrown (m : DeviceMotion) (md : DeviceMetadata)
    (w : World) :
  new_PresenceDevice_with_motion m md w <> Thrown.
Proof.
  rewrite with_motion_unfold.
  destruct (ElapsedRealtime w) as [[t w1] | |]; try discriminate.
  destruct (RandBytes kEndpointIdLength w1) as [[id w2] | |]; discriminate.
Qed.

(** Every operation hands the receiver back as it got it. *)
Lemma step_keeps_receiver (op : Op) (this d' : PresenceDevice)
    (w w' : World) (o : Obs) :
  step op this w = Returned ((o, d'), w') -> d' = this.
Proof.
  destruct op; cbn [step]; unfold bind, ret.
  1-5: intros H; inversion H; reflexivity.
  - destruct (ElapsedRealtime w) as [[t w1] | |]; try discriminate.
    intros H; inversion H; reflexivity.
  - destruct (new_PresenceDevice device_metadata w) as [[d w1] | |];
      try discriminate.
    intros H; inversion H; reflexivity.
  - destruct (new_PresenceDevice_with_motion device_motion device_metadata w)
      as [[d w1] | |]; try discriminate.
    intros H; inversion H; reflexivity.
Qed.

Lemma step_timestamp_read (this d' : PresenceDevice) (w w' : World) (o : Obs) :
  step OpGetDiscoveryTimestamp this w = Returned ((o, d'), w') ->
  o = ObsTimestamp (GetDiscoveryTimestamp this) /\ w' = w.
Proof.
  cbn [step]; unfold ret. intros H; inversion H; split; reflexivity.
Qed.

Lemma run_cons_inv (op : Op) (ops : list Op) (this d' : PresenceDevice)
    (w w' : World) (obs : list Obs) :
  run (op :: ops) this w = Returned ((obs, d'), w') ->
  exists o d1 w1 obs1,
    step op this w = Returned ((o, d1), w1) /\
    run ops d1 w1 = Returned ((obs1, d'), w') /\
    obs = o :: obs1.
Proof.
  cbn [run]; unfold bind at 1.
  destruct (step op this w) as [[[o d1] w1] | |] eqn:Hstep;
    try discriminate.
  unfold bind, ret; cbn [snd fst].
  destruct (run ops d1 w1) as [[[obs1 d2] w2] | |] eqn:Hrun;
    try discriminate.
  cbn [snd fst]. intros H; inversion H; subst.
  exists o, d1, w1, obs1.
  split; [reflexivity | split; [exact Hrun | reflexivity]].
Qed.

(** A history of operations leaves the record as it was, and every read
    of the discovery timestamp in it yields the stored one. *)
Lemma run_keeps_receiver (ops : list Op) :
  forall (this d' : PresenceDevice) (w w' : World) (obs : list Obs),
    run ops this w = Returned ((obs, d'), w') ->
    d' = this /\
    List.length obs = List.length ops /\
    (forall o, In (OpGetDiscoveryTimestamp, o) (List.combine ops obs) ->
               o = ObsTimestamp (GetDiscoveryTimestamp this)).
Proof.
  induction ops as [| op ops IH]; intros this d' w w' obs H.
  - cbn in H. unfold ret in H. inversion H; subst.
    repeat split. intros o [].
  - apply run_cons_inv in H.
    destruct H as (o & d1 & w1 & obs1 & Hstep & Hrun & ->).
    pose proof (step_keeps_receiver _ _ _ _ _ _ Hstep) as ->.
    destruct (IH _ _ _ _ _ Hrun) as (-> & Hlen & Hts).
    split; [reflexivity | split].
    + cbn. now rewrite Hlen.
    + intros o' [Hhd | Htl].
      * inversion Hhd; subst.
        apply step_timestamp_read in Hstep. tauto.
      * apply Hts, Htl.
Qed.

Lemma step_returns (op : Op) (this : PresenceDevice) (w : World) :
  clock_returns -> random_returns ->
  exists o w', step op this w = Returned ((o, this), w').
Proof.
  intros Hc Hr.
  assert (Hnew : forall m md w0, exists d w',
             new_PresenceDevice_with_motion m md w0 = Returned (d, w')).
  { intros m md w0.
    destruct (Hc w0) as (t & w1 & Ht).
    destruct (Hr kEndpointIdLength w1) as (id & w2 & Hid).
    eexists; eexists. apply (with_motion_returns _ _ _ _ _ _ _ Ht Hid). }
  destruct op; cbn [step]; unfold bind, ret.
  1-5: eexists; eexists; reflexivity.
  - destruct (Hc w) as (t & w1 & ->). eexists; eexists; reflexivity.
  - rewrite new_PresenceDevice_as_with_motion.
    destruct (Hnew DeviceMotion_default device_metadata w) as (d & w1 & ->).
    eexists; eexists; reflexivity.
  - destruct (Hnew device_motion device_metadata w) as (d & w1 & ->).
    eexists; eexists; reflexivity.
Qed.

Lemma run_returns (ops : list Op) :
  clock_returns -> random_returns ->
  forall (this : PresenceDevice) (w : World),
    exists obs w', run ops this w = Returned ((obs, this), w').
Proof.
  intros Hc Hr. induction ops as [| op ops IH]; intros this w.
  - exists [], w. reflexivity.
  - destruct (step_returns op this w Hc Hr) as (o & w1 & Hstep).
    destruct (IH this w1) as (obs & w2 & Hrun).
    exists (o :: obs), w2.
    cbn [run]. unfold bind at 1. rewrite Hstep.
    unfold bind, ret; cbn [snd fst]. rewrite Hrun. reflexivity.
Qed.

(** C5.  For every device record, [GetConnectionInfos] returns a list of
    exactly one element, the BLE connection info that carries the
    Bluetooth MAC address of the record's metadata; a record built by
    either constructor from metadata [md] therefore yields the single BLE
    connection info of [md]'s address, and for the address
    AA:BB:CC:DD:EE:FF that very address is carried. *)
Theorem GetConnectionInfos_single_ble :
  (forall this : PresenceDevice,
     GetConnectionInfos this =
       [BleVariant (mkBleConnectionInfo
                      (bluetooth_mac_address (GetDeviceMetadata this)))] /\
     List.length (GetConnectionInfos this) = 1) /\
  (forall om md w d w',
     construct om md w = Returned (d, w') ->
     GetConnectionInfos d =
       [BleVariant (mkBleConnectionInfo (bluetooth_mac_address md))]) /\
  (forall om md w d w',
     bluetooth_mac_address md = "AA:BB:CC:DD:EE:FF"%string ->
     construct om md w = Returned (d, w') ->
     exists info,
       GetConnectionInfos d = [BleVariant info] /\
       mac_address info = "AA:BB:CC:DD:EE:FF"%string).
Proof.
  assert (Hbuilt : forall om md w d w',
             construct om md w = Returned (d, w') ->
             GetConnectionInfos d =
               [BleVariant (mkBleConnectionInfo (bluetooth_mac_address md))]).
  { intros om md w d w' H. rewrite construct_as_with_motion in H.
    apply with_motion_returned_inv in H.
    destruct H as (t & w1 & id & _ & _ & ->). reflexivity. }
  split; [| split].
  - intros this. split; reflexivity.
  - exact Hbuilt.
  - intros om md w d w' Hmac H.
    exists (mkBleConnectionInfo (bluetooth_mac_address md)).
    split; [exact (Hbuilt _ _ _ _ _ H) | exact Hmac].
Qed.

(** C6, as amended.  Two records constructed independently, even from
    identical metadata and motion, carry as EndpointIds exactly the two
    draws of [kEndpointIdLength] bytes that their constructors made from
    the random source: the records exist as soon as the clock and the
    random source return, the two EndpointIds differ exactly when the two
    draws differ, and each has length [kEndpointIdLength] when the random
    source hands back as many bytes as it is asked for. *)
Theorem EndpointId_is_fresh_draw
    (om1 om2 : option DeviceMotion) (md1 md2 : DeviceMetadata)
    (wa ua wa' wb ub wb' : World) (t1 t2 : Timestamp) (r1 r2 : string) :
  ElapsedRealtime wa = Returned (t1, ua) ->
  RandBytes kEndpointIdLength ua = Returned (r1, wa') ->
  ElapsedRealtime wb = Returned (t2, ub) ->
  RandBytes kEndpointIdLength ub = Returned (r2, wb') ->
  exists d1 d2,
    construct om1 md1 wa = Returned (d1, wa') /\
    construct om2 md2 wb = Returned (d2, wb') /\
    GetEndpointId d1 = r1 /\
    GetEndpointId d2 = r2 /\
    (r1 <> r2 <-> GetEndpointId d1 <> GetEndpointId d2) /\
    (random_length ->
     String.length (GetEndpointId d1) = kEndpointIdLength /\
     String.length (GetEndpointId d2) = kEndpointIdLength).
Proof.
  intros Ht1 Hr1 Ht2 Hr2.
  exists (mkPresenceDevice t1 (motion_or_default om1) md1 r1),
         (mkPresenceDevice t2 (motion_or_default om2) md2 r2).
  rewrite !construct_as_with_motion.
  rewrite (with_motion_returns _ md1 _ _ _ _ _ Ht1 Hr1).
  rewrite (with_motion_returns _ md2 _ _ _ _ _ Ht2 Hr2).
  cbn [GetEndpointId endpoint_id_].
  repeat match goal with |- _ /\ _ => split end; try reflexivity.
  - intros Hlen. split; [exact (Hlen _ _ _ _ Hr1) | exact (Hlen _ _ _ _ Hr2)].
Qed.

(** C7.  A record is immutable after construction.  Its discovery
    timestamp is the clock reading taken in the constructor; after any
    history of later operations (the five read accessors, which are the
    whole surface, further clock reads, further constructions) the record
    is the one that was constructed, every read of its timestamp yields
    that first reading, and such a history runs to its end whenever the
    clock and the random source return. *)
Theorem discovery_timestamp_never_refreshed
    (om : option DeviceMotion) (md : DeviceMetadata)
    (w w1 w2 : World) (t : Timestamp) (id : string) :
  ElapsedRealtime w = Returned (t, w1) ->
  RandBytes kEndpointIdLength w1 = Returned (id, w2) ->
  exists d,
    construct om md w = Returned (d, w2) /\
    GetDiscoveryTimestamp d = t /\
    (forall ops obs d' w',
       run ops d w2 = Returned ((obs, d'), w') ->
       d' = d /\
       GetDiscoveryTimestamp d' = t /\
       List.length obs = List.length ops /\
       (forall o, In (OpGetDiscoveryTimestamp, o) (List.combine ops obs) ->
                  o = ObsTimestamp t)) /\
    (clock_returns -> random_returns ->
     forall ops, exists obs w', run ops d w2 = Returned ((obs, d), w')).
Proof.
  intros Ht Hid.
  exists (mkPresenceDevice t (motion_or_default om) md id).
  rewrite construct_as_with_motion.
  rewrite (with_motion_returns _ md _ _ _ _ _ Ht Hid).
  split; [reflexivity | split; [reflexivity | split]].
  - intros ops obs d' w' Hrun.
    destruct (run_keeps_receiver ops _ _ _ _ _ Hrun) as (-> & Hlen & Hts).
    split; [reflexivity | split; [reflexivity | split]].
    + exact Hlen.
    + exact Hts.
  - intros Hc Hr ops. apply (run_returns ops Hc Hr).
Qed.

(** C8.  For every metadata, the constructor without a motion argument
    stores the neutral default [DeviceMotion()] in the motion field, and
    the constructor with a motion argument stores the supplied value: so
    it is for every record that either constructor returns, and the
    constructors do return one when the clock and the random source
    return. *)
Theorem device_motion_initialised (md : DeviceMetadata) (w : World) :
  (forall d w',
     new_PresenceDevice md w = Returned (d, w') ->
     GetDeviceMotion d = DeviceMotion_default) /\
  (forall m d w',
     new_PresenceDevice_with_motion m md w = Returned (d, w') ->
     GetDeviceMotion d = m) /\
  (forall t w1 id w2,
     ElapsedRealtime w = Returned (t, w1) ->
     RandBytes kEndpointIdLength w1 = Returned (id, w2) ->
     (exists d,
        new_PresenceDevice md w = Returned (d, w2) /\
        GetDeviceMotion d = DeviceMotion_default) /\
     (forall m, exists d,
        new_PresenceDevice_with_motion m md w = Returned (d, w2) /\
        GetDeviceMotion d = m)).
Proof.
  split; [| split].
  - intros d w' H. rewrite new_PresenceDevice_as_with_motion in H.
    apply with_motion_returned_inv in H.
    destruct H as (t & w1 & id & _ & _ & ->). reflexivity.
  - intros m d w' H. apply with_motion_returned_inv in H.
    destruct H as (t & w1 & id & _ & _ & ->). reflexivity.
  - intros t w1 id w2 Ht Hid. split.
    + exists (mkPresenceDevice t DeviceMotion_default md id).
      rewrite new_PresenceDevice_as_with_motion.
      split; [apply (with_motion_returns _ _ _ _ _ _ _ Ht Hid) | reflexivity].
    + intros m. exists (mkPresenceDevice t m md id).
      split; [apply (with_motion_returns _ _ _ _ _ _ _ Ht Hid) | reflexivity].
Qed.

(** C10.  Both constructors are [noexcept].  For every metadata and
    optional motion, construction never lets an exception reach the
    caller; when the clock and the random source return it completes and
    yields the record whose four fields are the clock reading, the motion
    (supplied or default), the metadata and the drawn EndpointId; every
    record it yields is of that form, so the record with the not yet
    assigned EndpointId is never handed out; and when one of the two calls
    does not return, the process is terminated and no record is yielded. *)
Theorem constructors_noexcept
    (om : option DeviceMotion) (md : DeviceMetadata) (w : World) :
  construct om md w <> Thrown /\
  (forall t w1 id w2,
     ElapsedRealtime w = Returned (t, w1) ->
     RandBytes kEndpointIdLength w1 = Returned (id, w2) ->
     construct om md w =
       Returned (mkPresenceDevice t (motion_or_default om) md id, w2)) /\
  (forall d w',
     construct om md w = Returned (d, w') ->
     exists t w1 id,
       ElapsedRealtime w = Returned (t, w1) /\
       RandBytes kEndpointIdLength w1 = Returned (id, w') /\
       GetDiscoveryTimestamp d = t /\
       GetDeviceMotion d = motion_or_default om /\
       GetDeviceMetadata d = md /\
       GetEndpointId d = id) /\
  ((forall t w1, ElapsedRealtime w <> Returned (t, w1)) ->
   construct om md w = Terminated) /\
  (forall t w1,
     ElapsedRealtime w = Returned (t, w1) ->
     (forall id w2, RandBytes kEndpointIdLength w1 <> Returned (id, w2)) ->
     construct om md w = Terminated).
Proof.
  rewrite construct_as_with_motion.
  split; [apply with_motion_not_thrown | split; [| split; [| split]]].
  - intros t w1 id w2 Ht Hid. apply (with_motion_returns _ _ _ _ _ _ _ Ht Hid).
  - intros d w' H. apply with_motion_returned_inv in H.
    destruct H as (t & w1 & id & Ht & Hid & ->).
    exists t, w1, id. repeat match goal with |- _ /\ _ => split end;
      solve [assumption | reflexivity].
  - intros Hno. rewrite with_motion_unfold.
    destruct (ElapsedRealtime w) as [[t w1] | |]; try reflexivity.
    exfalso. apply (Hno t w1). reflexivity.
  - intros t w1 Ht Hno. rewrite with_motion_unfold, Ht.
    destruct (RandBytes kEndpointIdLength w1) as [[id w2] | |];
      try reflexivity.
    exfalso. apply (Hno id w2). reflexivity.
Qed.

End Generic.

(** ** The concrete platform *)

Section OnSim.
Import Sim.
Local Open Scope string_scope.

Lemma tape_segment_length (f : nat -> ascii) (n : nat) :
  forall from, String.length (tape_segment f from n) = n.
Proof.
  induction n as [| n IH]; intros from; cbn.
  - reflexivity.
  - now rewrite IH.
Qed.

Lemma sim_clock_returns : @clock_returns deps.
Proof. intros w. eexists; eexists. reflexivity. Qed.

Lemma sim_random_returns : @random_returns deps.
Proof. intros n w. eexists; eexists. reflexivity. Qed.

Lemma sim_random_length : @random_length deps.
Proof.
  intros n w s w' H. cbn in H. unfold draw in H.
  inversion H; subst. apply tape_segment_length.
Qed.

Example first_device_on_sim :
  new_PresenceDevice (D := deps) metadata0 world0 =
  Returned (mkPresenceDevice (D := deps) 1000%Z MotionUnknown metadata0 "ABCD",
            mkSimWorld 1001 alphabet 4).
Proof. reflexivity. Qed.

Example history0_on_sim :
  let d := mkPresenceDevice (D := deps) 1000%Z MotionUnknown metadata0 "ABCD" in
  run history0 d (mkSimWorld 1001 alphabet 4) =
  Returned
    (([ObsTimestamp (D := deps) 1001%Z;
       ObsTimestamp (D := deps) 1000%Z;
       ObsDevice (D := deps) (mkPresenceDevice (D := deps) 1002%Z MotionUnknown metadata0
                    "EFGH");
       ObsTimestamp (D := deps) 1003%Z;
       ObsTimestamp (D := deps) 1000%Z;
       ObsEndpointId (D := deps) "ABCD"], d),
     mkSimWorld 1004 alphabet 8).
Proof. reflexivity. Qed.

Example failing_draw_terminates :
  new_PresenceDevice (D := failing_deps) metadata0 world0 = Terminated.
Proof. reflexivity. Qed.

Lemma GetConnectionInfos_single_ble_witness :
  bluetooth_mac_address (Deps := deps) metadata0 = "AA:BB:CC:DD:EE:FF" /\
  exists d w',
    construct (D := deps) None metadata0 world0 = Returned (d, w') /\
    exists info,
      GetConnectionInfos d = [BleVariant info] /\
      mac_address info = "AA:BB:CC:DD:EE:FF".
Proof.
  split; [reflexivity |].
  eexists; eexists. split; [reflexivity |].
  eapply (proj2 (proj2 (GetConnectionInfos_single_ble (D := deps)))
            None metadata0 world0); reflexivity.
Defined.

Lemma EndpointId_is_fresh_draw_witness :
  exists d1 d2,
    construct (D := deps) None metadata0 world0 =
      Returned (d1, mkSimWorld 1001 alphabet 4) /\
    construct (D := deps) None metadata0 (mkSimWorld 1001 alphabet 4) =
      Returned (d2, mkSimWorld 1002 alphabet 8) /\
    GetEndpointId d1 = "ABCD" /\
    GetEndpointId d2 = "EFGH" /\
    GetEndpointId d1 <> GetEndpointId d2 /\
    String.length (GetEndpointId d1) = 4.
Proof.
  destruct (EndpointId_is_fresh_draw (D := deps)
              None None metadata0 metadata0
              world0 (mkSimWorld 1001 alphabet 0) (mkSimWorld 1001 alphabet 4)
              (mkSimWorld 1001 alphabet 4) (mkSimWorld 1002 alphabet 4)
              (mkSimWorld 1002 alphabet 8)
              1000%Z 1001%Z "ABCD" "EFGH"
              eq_refl eq_refl eq_refl eq_refl)
    as (d1 & d2 & H1 & H2 & H3 & H4 & H5 & H6).
  exists d1, d2.
  split; [exact H1 | split; [exact H2 | split; [exact H3 | split]]].
  - exact H4.
  - split.
    + apply H5. discriminate.
    + apply (H6 sim_random_length).
Defined.

(** C6, the claim as stated fails: with a random source whose two draws
    coincide, two records constructed one after the other from the same
    metadata carry the same EndpointId. *)
Lemma EndpointId_collision :
  let d1 := mkPresenceDevice (D := deps) 1000%Z MotionUnknown metadata0 "ABCD" in
  let d2 := mkPresenceDevice (D := deps) 1001%Z MotionUnknown metadata0 "ABCD" in
  new_PresenceDevice (D := deps) metadata0 world_period4 =
    Returned (d1, mkSimWorld 1001 period4 4) /\
  new_PresenceDevice (D := deps) metadata0 (mkSimWorld 1001 period4 4) =
    Returned (d2, mkSimWorld 1002 period4 8) /\
  d1 <> d2 /\
  GetEndpointId d1 = GetEndpointId d2.
Proof.
  cbv zeta. split; [reflexivity | split; [reflexivity | split]].
  - discriminate.
  - reflexivity.
Qed.

Lemma discovery_timestamp_never_refreshed_witness :
  exists d,
    construct (D := deps) None metadata0 world0 =
      Returned (d, mkSimWorld 1001 alphabet 4) /\
    GetDiscoveryTimestamp d = 1000%Z /\
    exists obs w',
      run history0 d (mkSimWorld 1001 alphabet 4) = Returned ((obs, d), w') /\
      ElapsedRealtime (Deps := deps) w' = Returned (1004%Z, mkSimWorld 1005 alphabet 8) /\
      forall o, In (OpGetDiscoveryTimestamp, o) (List.combine history0 obs) ->
                o = ObsTimestamp (D := deps) 1000%Z.
Proof.
  destruct (discovery_timestamp_never_refreshed (D := deps)
              None metadata0 world0 (mkSimWorld 1001 alphabet 0)
              (mkSimWorld 1001 alphabet 4) 1000%Z "ABCD" eq_refl eq_refl)
    as (d & Hc & Ht & Hkeep & Hruns).
  exists d. split; [exact Hc | split; [exact Ht |]].
  destruct (Hruns sim_clock_returns sim_random_returns history0)
    as (obs & w' & Hrun).
  exists obs, w'. split; [exact Hrun | split].
  - cbv in Hc. inversion Hc; subst d. cbv in Hrun.
    inversion Hrun; subst. reflexivity.
  - apply (Hkeep history0 obs d w' Hrun).
Defined.

Lemma device_motion_initialised_witness :
  (exists d,
     new_PresenceDevice (D := deps) metadata0 world0 =
       Returned (d, mkSimWorld 1001 alphabet 4) /\
     GetDeviceMotion d = MotionUnknown) /\
  (exists d,
     new_PresenceDevice_with_motion (D := deps) MotionPointAndHold metadata0
       world0 = Returned (d, mkSimWorld 1001 alphabet 4) /\
     GetDeviceMotion d = MotionPointAndHold).
Proof.
  destruct (device_motion_initialised (D := deps) metadata0 world0)
    as (_ & _ & H).
  destruct (H 1000%Z (mkSimWorld 1001 alphabet 0) "ABCD"
              (mkSimWorld 1001 alphabet 4) eq_refl eq_refl) as (H1 & H2).
  split; [exact H1 | exact (H2 MotionPointAndHold)].
Defined.

Lemma constructors_noexcept_witness :
  construct (D := deps) (Some MotionPointAndHold) metadata0 world0 =
    Returned (mkPresenceDevice (D := deps) 1000%Z MotionPointAndHold metadata0
                "ABCD",
              mkSimWorld 1001 alphabet 4) /\
  construct (D := failing_deps) None metadata0 world0 = Terminated.
Proof.
  split.
  - apply (proj1 (proj2 (constructors_noexcept (D := deps)
                           (Some MotionPointAndHold) metadata0 world0))
             1000%Z (mkSimWorld 1001 alphabet 0) "ABCD"
             (mkSimWorld 1001 alphabet 4) eq_refl eq_refl).
  - apply (proj2 (proj2 (proj2 (proj2
             (constructors_noexcept (D := failing_deps)
                None metadata0 world0))))
             1000%Z (mkSimWorld 1001 alphabet 0) eq_refl).
    intros id w2. discriminate.
Defined.

End OnSim.

End PresenceFacts.

(* ===================================================================== *)
(** * Properties of the credential storage facade                         *)
(* ===================================================================== *)

Module StorageFacts.
Import Storage.

Section Forwarding.
Context `{T : Types}.
Variable St : Type.
Variable impl : api_CredentialStorage St.

(** C9.  Each of the four facade operations behaves exactly as the
    operation of the same name of the injected implementation on the
    arguments it received, and reaches the implementation exactly once
    with exactly those arguments: run over the logging wrapper, it extends
    the log by that single invocation and otherwise yields what the
    implementation yields (no retry, no caching, no validation, no
    change of the arguments). *)
Theorem facade_forwards_verbatim :
  (forall a v cb s,
     SavePrivateCredentials (mkCredentialStorage impl) a v cb s =
     api_SavePrivateCredentials impl a v cb s) /\
  (forall a v ty cb s,
     SavePublicCredentials (mkCredentialStorage impl) a v ty cb s =
     api_SavePublicCredentials impl a v ty cb s) /\
  (forall sel cb s,
     GetPrivateCredentials (mkCredentialStorage impl) sel cb s =
     api_GetPrivateCredentials impl sel cb s) /\
  (forall sel ty cb s,
     GetPublicCredentials (mkCredentialStorage impl) sel ty cb s =
     api_GetPublicCredentials impl sel ty cb s) /\
  (forall a v cb log s,
     SavePrivateCredentials (mkCredentialStorage (recording impl))
       a v cb (log, s) =
     (fst (api_SavePrivateCredentials impl a v cb s),
      (log ++ [CallSavePrivateCredentials a v cb],
       snd (api_SavePrivateCredentials impl a v cb s)))) /\
  (forall a v ty cb log s,
     SavePublicCredentials (mkCredentialStorage (recording impl))
       a v ty cb (log, s) =
     (fst (api_SavePublicCredentials impl a v ty cb s),
      (log ++ [CallSavePublicCredentials a v ty cb],
       snd (api_SavePublicCredentials impl a v ty cb s)))) /\
  (forall sel cb log s,
     GetPrivateCredentials (mkCredentialStorage (recording impl))
       sel cb (log, s) =
     (log ++ [CallGetPrivateCredentials sel cb],
      api_GetPrivateCredentials impl sel cb s)) /\
  (forall sel ty cb log s,
     GetPublicCredentials (mkCredentialStorage (recording impl))
       sel ty cb (log, s) =
     (log ++ [CallGetPublicCredentials sel ty cb],
      api_GetPublicCredentials impl sel ty cb s)).
Proof.
  repeat match goal with |- _ /\ _ => split end; intros;
    unfold SavePrivateCredentials, SavePublicCredentials,
      GetPrivateCredentials, GetPublicCredentials;
    cbn [impl_]; reflexivity.
Qed.

End Forwarding.

(** A save followed by a get through the facade, over the in-memory
    implementation with logging: two invocations reach the
    implementation, with the arguments the facade was given. *)
Example facade_on_mem :
  let facade := mkCredentialStorage (recording MemStore.mem) in
  let s1 := snd (SavePrivateCredentials facade "alice"%string
                   ["k1"%string; "k2"%string] 7 ([], MemStore.empty)) in
  let s2 := GetPrivateCredentials facade "alice"%string 8 s1 in
  fst s2 =
    [CallSavePrivateCredentials (T := MemStore.types) "alice"%string
       ["k1"%string; "k2"%string] 7;
     CallGetPrivateCredentials (T := MemStore.types) "alice"%string 8] /\
  MemStore.completed (snd s2) =
    [(8, Some ["k1"%string; "k2"%string]); (7, Some [])].
Proof. split; reflexivity. Qed.

End StorageFacts.

(* ===================================================================== *)
(** * Further properties of the options normaliser                        *)
(* ===================================================================== *)

Module ConnectionsMore.
Import Connections Scenarios ConnectionsFacts.

Lemma Count_pos_Any (m : BooleanMediumSelector) :
  1 <= Count m -> Any m = true.
Proof.
  intros H. destruct (Any m) eqn:E; [reflexivity |].
  apply Count_0_Any in E. lia.
Qed.

(** The selector of the result, branch by branch. *)
Lemma CompatibleOptions_Count (o : DiscoveryOptions) :
  1 <= Count (allowed (base (CompatibleOptions o))).
Proof.
  destruct (is_out_of_band_connection o) eqn:Hoob.
  - destruct (Nat.eq_dec (Count (allowed (base o))) 1) as [H1 | H1].
    + rewrite (CompatibleOptions_oob_one o Hoob H1). lia.
    + rewrite (CompatibleOptions_oob_other o Hoob H1).
      rewrite allowed_set_allowed, Count_BluetoothOnly. lia.
  - destruct (Nat.eq_dec (Count (allowed (base o))) 0) as [H0 | H0].
    + rewrite (CompatibleOptions_normal_none o Hoob H0).
      rewrite allowed_set_allowed, Count_SetAll_true. lia.
    + rewrite (CompatibleOptions_normal_some o Hoob H0). lia.
Qed.

(** X1.  The normaliser never hands back options without a medium: for
    every input, whatever its flags and its selector, the selector of the
    result has at least one medium enabled. *)
Theorem CompatibleOptions_never_empty (o : DiscoveryOptions) :
  Any (allowed (base (CompatibleOptions o))) = true /\
  1 <= Count (allowed (base (CompatibleOptions o))).
Proof.
  pose proof (CompatibleOptions_Count o) as H.
  split; [apply Count_pos_Any, H | exact H].
Qed.

(** X2.  The options that the normaliser returns unchanged are exactly
    the out-of-band options with one medium enabled and the
    not-out-of-band options with at least one medium enabled. *)
Theorem CompatibleOptions_fixed_points (o : DiscoveryOptions) :
  CompatibleOptions o = o <->
  (is_out_of_band_connection o = true /\ Count (allowed (base o)) = 1) \/
  (is_out_of_band_connection o = false /\ 1 <= Count (allowed (base o))).
Proof.
  split.
  - intros Hfix.
    pose proof (CompatibleOptions_Count o) as Hpos. rewrite Hfix in Hpos.
    destruct (is_out_of_band_connection o) eqn:Hoob.
    + left. split; [reflexivity |].
      destruct (Nat.eq_dec (Count (allowed (base o))) 1) as [H1 | H1];
        [exact H1 |].
      rewrite (CompatibleOptions_oob_other o Hoob H1) in Hfix.
      rewrite <- Hfix, allowed_set_allowed. apply Count_BluetoothOnly.
    + right. split; [reflexivity | exact Hpos].
  - intros [[Hoob H1] | [Hoob H1]].
    + apply (CompatibleOptions_oob_one o Hoob H1).
    + apply (CompatibleOptions_normal_some o Hoob). lia.
Qed.

(** X3.  Outside out-of-band mode the normaliser never disables a medium:
    every medium that the input enables is enabled in the result. *)
Theorem CompatibleOptions_normal_keeps_enabled (o : DiscoveryOptions) :
  is_out_of_band_connection o = false ->
  let m := allowed (base o) in
  let r := allowed (base (CompatibleOptions o)) in
  (bluetooth m = true -> bluetooth r = true) /\
  (ble m = true -> ble r = true) /\
  (wifi_lan m = true -> wifi_lan r = true) /\
  (wifi_direct m = true -> wifi_direct r = true) /\
  (wifi_aware m = true -> wifi_aware r = true) /\
  (nfc m = true -> nfc r = true) /\
  (web_rtc m = true -> web_rtc r = true).
Proof.
  intros Hoob m r. subst m r.
  destruct (Nat.eq_dec (Count (allowed (base o))) 0) as [H0 | H0].
  - rewrite (CompatibleOptions_normal_none o Hoob H0).
    rewrite allowed_set_allowed.
    repeat match goal with |- _ /\ _ => split end; intros _; reflexivity.
  - rewrite (CompatibleOptions_normal_some o Hoob H0).
    repeat match goal with |- _ /\ _ => split end; intros H; exact H.
Qed.

Lemma CompatibleOptions_fixed_points_witness :
  is_out_of_band_connection cluster_lan_oob = true /\
  Count (allowed (base cluster_lan_oob)) = 1 /\
  CompatibleOptions cluster_lan_oob = cluster_lan_oob.
Proof.
  split; [reflexivity | split; [reflexivity |]].
  apply (proj2 (CompatibleOptions_fixed_points cluster_lan_oob)).
  left. split; reflexivity.
Defined.

Lemma CompatibleOptions_normal_keeps_enabled_witness :
  is_out_of_band_connection (options STAR wifi_lan_only false) = false /\
  wifi_lan
    (allowed (base (CompatibleOptions (options STAR wifi_lan_only false)))) =
  true.
Proof.
  split; [reflexivity |].
  apply (CompatibleOptions_normal_keeps_enabled
           (options STAR wifi_lan_only false) eq_refl).
  reflexivity.
Defined.

End ConnectionsMore.

(* ===================================================================== *)
(** * Further properties of the presence device record                    *)
(* ===================================================================== *)

Module PresenceMore.
Import Cpp Presence PresenceTrace PresenceFacts.

Section Generic.
Context `{D : Deps}.

Lemma length_0_empty (s : string) :
  String.length s = 0 <-> s = EmptyString.
Proof.
  destruct s; cbn; split; intros H; first [reflexivity | discriminate].
Qed.

(** X4.  The connection infos of a record are determined by the Bluetooth
    MAC address of its metadata and by nothing else: two records have the
    same connection infos exactly when their addresses are equal, so two
    records built (by either constructor, in any two worlds) from metadata
    with one address have the same connection infos whatever their
    EndpointIds, timestamps and motions are. *)
Theorem GetConnectionInfos_determined_by_mac :
  (forall d1 d2 : PresenceDevice,
     GetConnectionInfos d1 = GetConnectionInfos d2 <->
     bluetooth_mac_address (GetDeviceMetadata d1) =
     bluetooth_mac_address (GetDeviceMetadata d2)) /\
  (forall om1 om2 md1 md2 wa wb d1 d2 wa' wb',
     bluetooth_mac_address md1 = bluetooth_mac_address md2 ->
     construct om1 md1 wa = Returned (d1, wa') ->
     construct om2 md2 wb = Returned (d2, wb') ->
     GetConnectionInfos d1 = GetConnectionInfos d2).
Proof.
  assert (Hiff : forall d1 d2 : PresenceDevice,
             GetConnectionInfos d1 = GetConnectionInfos d2 <->
             bluetooth_mac_address (GetDeviceMetadata d1) =
             bluetooth_mac_address (GetDeviceMetadata d2)).
  { intros d1 d2. unfold GetConnectionInfos, GetDeviceMetadata. split.
    - intros H. inversion H. reflexivity.
    - intros H. rewrite H. reflexivity. }
  split; [exact Hiff |].
  intros om1 om2 md1 md2 wa wb d1 d2 wa' wb' Hmac H1 H2.
  rewrite construct_as_with_motion in H1, H2.
  apply with_motion_returned_inv in H1, H2.
  destruct H1 as (t1 & u1 & id1 & _ & _ & ->).
  destruct H2 as (t2 & u2 & id2 & _ & _ & ->).
  apply Hiff. exact Hmac.
Qed.

(** X5.  Neither the EndpointId nor the discovery timestamp nor the
    state in which the clock and the random source are left depends on
    the metadata or the motion a record is constructed from: started in
    the same world, two constructions with different arguments either
    both end the process, or both return, with the same EndpointId, the
    same timestamp and the same resulting world. *)
Theorem EndpointId_independent_of_arguments
    (om1 om2 : option DeviceMotion) (md1 md2 : DeviceMetadata) (w : World) :
  (forall d1 w1,
     construct om1 md1 w = Returned (d1, w1) ->
     exists d2,
       construct om2 md2 w = Returned (d2, w1) /\
       GetEndpointId d2 = GetEndpointId d1 /\
       GetDiscoveryTimestamp d2 = GetDiscoveryTimestamp d1) /\
  (construct om1 md1 w = Terminated -> construct om2 md2 w = Terminated).
Proof.
  rewrite !construct_as_with_motion, !with_motion_unfold.
  destruct (ElapsedRealtime w) as [[t w1] | |].
  - destruct (RandBytes kEndpointIdLength w1) as [[id w2] | |].
    + split.
      * intros d1 w1' H. inversion H; subst.
        eexists. split; [reflexivity | split; reflexivity].
      * discriminate.
    + split; [discriminate | reflexivity].
    + split; [discriminate | reflexivity].
  - split; [discriminate | reflexivity].
  - split; [discriminate | reflexivity].
Qed.

(** X6.  When the random source hands back as many bytes as it is asked
    for, a constructed record carries the empty EndpointId exactly when
    [kEndpointIdLength] is zero; with a positive length the
    default-initialised empty id is never what a record ends up with. *)
Theorem EndpointId_empty_iff
    (om : option DeviceMotion) (md : DeviceMetadata) (w w' : World)
    (d : PresenceDevice) :
  random_length ->
  construct om md w = Returned (d, w') ->
  String.length (GetEndpointId d) = kEndpointIdLength /\
  (GetEndpointId d = EmptyString <-> kEndpointIdLength = 0).
Proof.
  intros Hlen H. rewrite construct_as_with_motion in H.
  apply with_motion_returned_inv in H.
  destruct H as (t & w1 & id & _ & Hid & ->).
  cbn [GetEndpointId endpoint_id_].
  pose proof (Hlen _ _ _ _ Hid) as Hl.
  split; [exact Hl |].
  rewrite <- Hl. symmetry. apply length_0_empty.
Qed.

(** X7.  What a construction asks of the platform: over the logging
    platform, a construction that returns has made exactly two calls, one
    clock reading followed by one draw of [kEndpointIdLength] random
    bytes, and leaves the underlying world as the plain construction
    does; and it returns, with the record of that reading and that draw,
    whenever the clock and the random source do. *)
Theorem construction_footprint
    (om : option DeviceMotion) (md : DeviceMetadata)
    (log : list Event) (w : World) :
  (forall (t : Timestamp) (w1 : World) (id : string) (w2 : World),
     ElapsedRealtime w = Returned (t, w1) ->
     RandBytes kEndpointIdLength w1 = Returned (id, w2) ->
     construct (D := traced D) om md (log, w) =
       Returned
         (mkPresenceDevice (D := traced D) t (motion_or_default om) md id,
          (log ++ [EvElapsedRealtime; EvRandBytes kEndpointIdLength], w2))) /\
  (forall (d : PresenceDevice (D := traced D)) (lw' : list Event * World),
     construct (D := traced D) om md (log, w) = Returned (d, lw') ->
     fst lw' = log ++ [EvElapsedRealtime; EvRandBytes kEndpointIdLength] /\
     exists d0, construct om md w = Returned (d0, snd lw')).
Proof.
  split.
  - intros t w1 id w2 Ht Hid.
    rewrite (construct_as_with_motion (D := traced D)).
    change (log ++ [EvElapsedRealtime; EvRandBytes kEndpointIdLength])
      with (log ++ [EvElapsedRealtime] ++ [EvRandBytes kEndpointIdLength]).
    rewrite List.app_assoc.
    apply (with_motion_returns (D := traced D) _ md (log, w)
             (log ++ [EvElapsedRealtime], w1)).
    + cbn. rewrite Ht. reflexivity.
    + cbn. rewrite Hid. reflexivity.
  - intros d lw' H.
    rewrite (construct_as_with_motion (D := traced D)) in H.
    apply (with_motion_returned_inv (D := traced D)) in H.
    destruct H as (t & lw1 & id & Ht & Hid & _).
    cbn in Ht.
    destruct (ElapsedRealtime w) as [[t0 w1] | |] eqn:Ht0; try discriminate.
    inversion Ht; subst. cbn in Hid.
    destruct (RandBytes kEndpointIdLength w1) as [[id0 w2] | |] eqn:Hid0;
      try discriminate.
    inversion Hid; subst. cbn [fst snd]. split.
    + rewrite <- List.app_assoc. reflexivity.
    + eexists. rewrite construct_as_with_motion.
      apply (with_motion_returns _ _ _ _ _ _ _ Ht0 Hid0).
Qed.

End Generic.

Section OnSim.
Import Sim.
Local Open Scope string_scope.

Lemma GetConnectionInfos_determined_by_mac_witness :
  exists d1 d2 wa' wb',
    construct (D := deps) None metadata0 world0 = Returned (d1, wa') /\
    construct (D := deps) (Some MotionPointAndHold)
      (mkMetadata "Watch" "AA:BB:CC:DD:EE:FF") wa' = Returned (d2, wb') /\
    GetEndpointId d1 <> GetEndpointId d2 /\
    GetConnectionInfos d1 = GetConnectionInfos d2.
Proof.
  eexists; eexists; eexists; eexists.
  split; [reflexivity | split; [reflexivity | split]].
  - discriminate.
  - eapply (proj2 (GetConnectionInfos_determined_by_mac (D := deps))
              None (Some MotionPointAndHold) metadata0
              (mkMetadata "Watch" "AA:BB:CC:DD:EE:FF"));
      reflexivity.
Defined.

Lemma EndpointId_independent_of_arguments_witness :
  exists d2,
    construct (D := deps) (Some MotionPointAndHold)
      (mkMetadata "Watch" "11:22:33:44:55:66") world0 =
      Returned (d2, mkSimWorld 1001 alphabet 4) /\
    GetEndpointId d2 = "ABCD" /\
    GetDiscoveryTimestamp d2 = 1000%Z.
Proof.
  apply (proj1 (EndpointId_independent_of_arguments (D := deps)
                  None (Some MotionPointAndHold) metadata0
                  (mkMetadata "Watch" "11:22:33:44:55:66") world0)
           (mkPresenceDevice (D := deps) 1000%Z MotionUnknown metadata0 "ABCD")
           (mkSimWorld 1001 alphabet 4)).
  reflexivity.
Defined.

Lemma EndpointId_empty_iff_witness :
  exists d w',
    construct (D := deps) None metadata0 world0 = Returned (d, w') /\
    String.length (GetEndpointId d) = 4 /\
    GetEndpointId d <> EmptyString.
Proof.
  eexists; eexists. split; [reflexivity |].
  destruct (EndpointId_empty_iff (D := deps) None metadata0 world0 _ _
              sim_random_length eq_refl) as [Hl Hiff].
  split; [exact Hl |].
  intros He. apply Hiff in He. discriminate He.
Defined.

Lemma construction_footprint_witness :
  construct (D := traced deps) None metadata0 ([], world0) =
  Returned
    (mkPresenceDevice (D := traced deps) 1000%Z MotionUnknown metadata0 "ABCD",
     ([EvElapsedRealtime; EvRandBytes 4], mkSimWorld 1001 alphabet 4)).
Proof.
  apply (proj1 (construction_footprint (D := deps) None metadata0 [] world0)
           1000%Z (mkSimWorld 1001 alphabet 0) "ABCD"
           (mkSimWorld 1001 alphabet 4) eq_refl eq_refl).
Defined.

End OnSim.

End PresenceMore.

(* ===================================================================== *)
(** * Further properties of the credential storage facade                 *)
(* ===================================================================== *)

Module StorageMore.
Import Storage StorageSeq.

Section Sequences.
Context `{T : Types}.
Variable St : Type.
Variable impl : api_CredentialStorage St.

(** One request through the facade over the logging wrapper. *)
Lemma request_recording (c : Call) (log : list Call) (s : St) :
  request (mkCredentialStorage (recording impl)) c (log, s) =
  (log ++ [c], invoke impl c s).
Proof. destruct c; reflexivity. Qed.

Lemma request_plain (c : Call) (s : St) :
  request (mkCredentialStorage impl) c s = invoke impl c s.
Proof. destruct c; reflexivity. Qed.

(** X8.  The facade is transparent over whole sequences of requests: the
    implementation receives exactly the requests that were made of the
    facade, each once, in the order they were made (repeated requests
    reach it again, none is answered from a cache, merged or dropped),
    and the state left behind is the one that the implementation reaches
    when it serves the same requests directly. *)
Theorem facade_transparent_on_sequences (cs : list Call) :
  (forall (log : list Call) (s : St),
     request_all (mkCredentialStorage (recording impl)) cs (log, s) =
     (log ++ cs, invoke_all impl cs s)) /\
  (forall s : St,
     request_all (mkCredentialStorage impl) cs s = invoke_all impl cs s).
Proof.
  unfold request_all, invoke_all. split.
  - induction cs as [| c rest IH]; intros log s; cbn [List.fold_left].
    + rewrite List.app_nil_r. reflexivity.
    + rewrite request_recording, IH, <- List.app_assoc. reflexivity.
  - induction cs as [| c rest IH]; intros s; cbn [List.fold_left].
    + reflexivity.
    + rewrite request_plain. apply IH.
Qed.

End Sequences.

(** The same request made twice reaches the in-memory implementation
    twice. *)
Example repeated_get_reaches_mem_twice :
  let get := CallGetPrivateCredentials (T := MemStore.types)
               "alice"%string 8 in
  fst (request_all (mkCredentialStorage (recording MemStore.mem))
         [get; get] ([], MemStore.empty)) = [get; get].
Proof. reflexivity. Qed.

End StorageMore.
